(** * OptySys front-end: login form controller, token normalisation, skill options

    A shallow embedding of the TypeScript sources

    - [utils] (src/unnamed/part_001): [normalizeAccessToken], [capitalize],
      [getSkillsList];
    - the login page (src/unnamed/part_000): [onChange], [onSubmit],
      [setShowPassword];
    - the session store behind [IUserStore] (src/frontend/types/store.ts) and
      the validator [getLoginFormErrors] (imported from [@/utils/errors]),
      whose bodies are not part of the sources at hand.

    JavaScript strings are sequences of UTF-16 code units; here a [string] is
    a sequence of characters, one character standing for one code unit. *)

From Stdlib Require Import Ascii String List Arith Bool Lia.
From stdpp Require Import base option list strings gmap fin_maps.

Open Scope string_scope.

(** ** JavaScript primitives used by the sources *)

Module JS.

(** The double-quote character, U+0022. *)
Definition dquote : ascii := "034"%char.

(** The values a property of the form object can hold. *)
Inductive Value : Type :=
| Undefined
| Str (s : string)
| Bool (b : bool).

(** ToBoolean: [undefined], the empty string and [false] are falsy. *)
Definition truthy (v : Value) : bool :=
  match v with
  | Undefined => false
  | Str s => negb (String.eqb s "")
  | Bool b => b
  end.

(** The prefix operator [!v]. *)
Definition logicalNot (v : Value) : Value := Bool (negb (truthy v)).

(** [o[k]] (also [o.k]): the property, [undefined] when the object has none. *)
Definition prop (o : gmap string Value) (k : string) : Value :=
  default Undefined (o !! k).

(** A settled promise: the value an [await] returns, or the reason it
    throws. *)
Inductive Promise (A : Type) : Type :=
| Resolved (a : A)
| Rejected (reason : string).
Arguments Resolved {A} a.
Arguments Rejected {A} reason.

(** [await p; k]: continue with the value, or propagate the rejection. *)
Definition bind {A B : Type} (p : Promise A) (k : A -> Promise B) : Promise B :=
  match p with
  | Resolved a => k a
  | Rejected r => Rejected r
  end.

(** [s.replace(/c/g, by)] for a pattern that is the single literal
    character [c]: every occurrence of [c], scanning left to right, is
    replaced with [by]; all other characters are copied. *)
Fixpoint replaceAll (c : ascii) (by_ : string) (s : string) : string :=
  match s with
  | EmptyString => EmptyString
  | String x rest =>
      if Ascii.eqb x c then by_ +:+ replaceAll c by_ rest
      else String x (replaceAll c by_ rest)
  end.

(** [s.includes(c)] for a single character [c]. *)
Fixpoint contains (c : ascii) (s : string) : bool :=
  match s with
  | EmptyString => false
  | String x rest => if Ascii.eqb x c then true else contains c rest
  end.

(** [s.charAt(i)]: the one-character string at index [i], or the empty
    string when [i] is out of range. *)
Definition charAt (i : nat) (s : string) : string :=
  match String.get i s with
  | Some x => String x EmptyString
  | None => EmptyString
  end.

(** [s.slice(start)] for a non-negative [start]: the characters from index
    [start] to the end; empty when [start] is past the end. *)
Fixpoint slice (start : nat) (s : string) : string :=
  match start, s with
  | O, _ => s
  | S n, String _ rest => slice n rest
  | S _, EmptyString => EmptyString
  end.

Section CaseMapping.

(** The upper-case mapping of one code unit; it may yield several code
    units (U+00DF maps to two). *)
Variable upper : ascii -> string.

(** [s.toUpperCase()], code unit by code unit. [capitalize] only applies
    it to the result of [charAt], a string of at most one code unit. *)
Fixpoint toUpperCase (s : string) : string :=
  match s with
  | EmptyString => EmptyString
  | String x rest => upper x +:+ toUpperCase rest
  end.

End CaseMapping.

(** The mapping on the ASCII range: [a]..[z] go to [A]..[Z], every other
    character is kept. *)
Definition asciiUpper (x : ascii) : string :=
  let n := nat_of_ascii x in
  if ((97 <=? n)%nat && (n <=? 122)%nat)%bool
  then String (ascii_of_nat (n - 32)) EmptyString
  else String x EmptyString.

End JS.

(** ** utils (src/unnamed/part_001) *)

Module Utils.
Import JS.

Definition normalizeAccessToken (token : string) : string :=
  replaceAll dquote "" token.

Record IOption : Type := { value : string; label : string }.

Section WithCollaborators.

Variable upper : ascii -> string.

(** The CSV lookup collaborator, [getCSVData(path)]. *)
Variable getCSVData : string -> Promise (list string).

Definition capitalize (str : string) : string :=
  toUpperCase upper (charAt 0 str) +:+ slice 1 str.

Definition getSkillsList : Promise (list IOption) :=
  bind (getCSVData "lib/constants/technologies.csv") (fun data =>
    let skills :=
      map (fun skill => {| value := skill; label := capitalize skill |}) data in
    Resolved skills).

End WithCollaborators.

(** What the spec's wording of the normalisation describes: only the quote
    characters that wrap the token, at its two ends, are removed. Used to
    compare the wording with [normalizeAccessToken]. *)
Fixpoint stripLeadingQuotes (s : string) : string :=
  match s with
  | String x rest => if Ascii.eqb x dquote then stripLeadingQuotes rest else s
  | EmptyString => EmptyString
  end.

Fixpoint stripTrailingQuotes (s : string) : string :=
  match s with
  | EmptyString => EmptyString
  | String x rest =>
      match stripTrailingQuotes rest with
      | EmptyString => if Ascii.eqb x dquote then EmptyString else String x EmptyString
      | rest' => String x rest'
      end
  end.

Definition stripWrappingQuotes (s : string) : string :=
  stripTrailingQuotes (stripLeadingQuotes s).

End Utils.

(** ** The session store (interface [IUserStore], src/frontend/types/store.ts) *)

Module Store.

(** Modelled from the spec: the identity record [IUser] is declared in
    [./user], which is not among the sources; the spec lists an opaque id, an
    email and the activation flag. *)
Record IUser : Type := { userId : string; userEmail : string; isActivated : bool }.

(** Modelled from the spec: the state behind [IUserStore]; both fields are
    absent while logged out. *)
Record IUserStore : Type := { user : option IUser; accessToken : option string }.

(** Modelled from the spec: the store is created empty at process start. *)
Definition initial : IUserStore := {| user := None; accessToken := None |}.

(** Modelled from the spec: the body of [setUser] is not among the sources;
    it replaces the stored identity wholesale. *)
Definition setUser (u : IUser) (st : IUserStore) : IUserStore :=
  {| user := Some u; accessToken := accessToken st |}.

(** Modelled from the spec: the body of [setAccessToken] is not among the
    sources; it normalises the token, then stores it. *)
Definition setAccessToken (token : string) (st : IUserStore) : IUserStore :=
  {| user := user st; accessToken := Some (Utils.normalizeAccessToken token) |}.

(** Modelled from the spec: the body of [getActivationStatus] is not among
    the sources; a read that yields the current user's activation flag, and
    [false] when no user is set. It returns the store it read next to the
    answer. *)
Definition getActivationStatus (st : IUserStore) : bool * IUserStore :=
  (match user st with
   | Some u => isActivated u
   | None => false
   end, st).

(** Modelled from the spec: the body of [logoutUser] is not among the
    sources; it resets both [user] and [accessToken] to absent. *)
Definition logoutUser (st : IUserStore) : IUserStore :=
  {| user := None; accessToken := None |}.

End Store.

(** ** The login validator ([getLoginFormErrors], imported from [@/utils/errors]) *)

Module Errors.
Import JS.

(** Modelled from the spec: the message of rule 1, email missing or empty. *)
Definition emailRequired : string := "Email is required.".

(** Modelled from the spec: the message of rule 2, email not email-shaped. *)
Definition emailInvalid : string := "Enter a valid email address.".

(** Modelled from the spec: the message of rule 3, password missing or empty. *)
Definition passwordRequired : string := "Password is required.".

(** Modelled from the spec: the message of rule 4, password too short. *)
Definition passwordTooShort : string := "Password must be at least 6 characters.".

(** Modelled from the spec: the minimum password length, default 6. *)
Definition minPasswordLength : nat := 6.

(** The text before and after the first occurrence of [c]. *)
Fixpoint splitFirst (c : ascii) (s : string) : option (string * string) :=
  match s with
  | EmptyString => None
  | String x rest =>
      if Ascii.eqb x c then Some (EmptyString, rest)
      else match splitFirst c rest with
           | Some (before, after) => Some (String x before, after)
           | None => None
           end
  end.

(** Modelled from the spec: the email-shape check of [@/utils/errors] is not
    among the sources; the spec asks for local-part[@]domain with at least
    one dot in the domain. *)
Definition isEmailShaped (s : string) : bool :=
  match splitFirst "@" s with
  | Some (local, domain) => negb (String.eqb local "") && contains "." domain
  | None => false
  end.

(** Modelled from the spec: "missing or empty". A field is missing when it
    holds no string ([undefined] before the first keystroke), empty when it
    holds the empty one. *)
Definition missingOrEmpty (v : Value) : bool :=
  match v with
  | Str s => String.eqb s ""
  | _ => true
  end.

(** The characters of a field; none when it holds no string. *)
Definition text (v : Value) : string :=
  match v with
  | Str s => s
  | _ => ""
  end.

(** Modelled from the spec: the body of [getLoginFormErrors] is not among
    the sources; the spec's four rules, checked in its order, the first
    violated one giving the message, [null] when all pass. *)
Definition getLoginFormErrors (email password : Value) : option string :=
  if missingOrEmpty email then Some emailRequired
  else if negb (isEmailShaped (text email)) then Some emailInvalid
  else if missingOrEmpty password then Some passwordRequired
  else if (String.length (text password) <? minPasswordLength)%nat then Some passwordTooShort
  else None.

(** "First violated rule wins", as the spec words it: the first message, in
    list order, whose rule is violated. Used to compare the wording with
    [getLoginFormErrors]. *)
Fixpoint firstViolated (rules : list (bool * string)) : option string :=
  match rules with
  | [] => None
  | (violated, message) :: rest =>
      if violated then Some message else firstViolated rest
  end.

End Errors.

(** ** The login page (src/unnamed/part_000) *)

Module LoginPage.
Import JS.

(** What the page asks of its collaborators, in the order it asks. *)
Inductive Effect : Type :=
| PreventDefault
| ToastError (message : string)
| ToastSuccess (message : string)
| Login (payload : gmap string Value)
| RouterPush (href : string).

(** The component's two [useState] cells, the session store the page lives
    next to, and the collaborator calls made so far (oldest first). *)
Record World : Type := {
  formData : gmap string Value;
  error : option string;
  session : Store.IUserStore;
  log : list Effect
}.

(** [useState<LoginFormData>({})], [useState<string | null>(null)]. *)
Definition initial : World :=
  {| formData := ∅; error := None; session := Store.initial; log := [] |}.

Definition setFormData (fd : gmap string Value) (w : World) : World :=
  {| formData := fd; error := error w; session := session w; log := log w |}.

Definition setError (e : option string) (w : World) : World :=
  {| formData := formData w; error := e; session := session w; log := log w |}.

Definition emit (e : Effect) (w : World) : World :=
  {| formData := formData w; error := error w; session := session w;
     log := log w ++ [e] |}.

(** An [async] handler either runs to its end, or is suspended at
    [await login(payload)] with the rest of its body, which runs on the world
    as it is when the promise settles. *)
Inductive Async : Type :=
| Done (w : World)
| AwaitLogin (w : World) (payload : gmap string Value)
    (k : Promise unit -> World -> World).

Definition onChange (name value : string) (w : World) : World :=
  let formData0 := formData w in
  let w := setFormData (<[name := Str value]> formData0) w in
  let '(email, password) :=
    if String.eqb name "email" then (Str value, prop formData0 "password")
    else if String.eqb name "password" then (prop formData0 "email", Str value)
    else (prop formData0 "email", prop formData0 "password") in
  let errorMessage := Errors.getLoginFormErrors email password in
  setError errorMessage w.

(** [if (errorMessage)]: a message that is neither [null] nor empty. *)
Definition truthyMessage (m : option string) : option string :=
  match m with
  | Some msg => if String.eqb msg "" then None else Some msg
  | None => None
  end.

Definition onSubmit (w : World) : Async :=
  let formData0 := formData w in
  let w := emit PreventDefault w in
  let errorMessage :=
    Errors.getLoginFormErrors (prop formData0 "email") (prop formData0 "password") in
  match truthyMessage errorMessage with
  | Some msg => Done (emit (ToastError msg) w)
  | None =>
      AwaitLogin (emit (Login formData0) w) formData0 (fun settled w' =>
        match settled with
        | Resolved _ =>
            emit (RouterPush "/dashboard")
              (emit (ToastSuccess "Successfully logged in.") w')
        | Rejected _ => emit (ToastError "Invalid credentials.") w'
        end)
  end.

Definition setShowPassword (name : string) (w : World) : World :=
  let formData0 := formData w in
  setFormData (<[name := logicalNot (prop formData0 name)]> formData0) w.

(** *** The page as an event loop *)

(** The world together with the [onSubmit] calls suspended at their
    [await], oldest first. *)
Record Controller : Type := {
  world : World;
  suspended : list (Promise unit -> World -> World)
}.

Inductive Event : Type :=
| Change (name value : string)
| Toggle (name : string)
| Submit
| Settle (outcome : Promise unit).

Definition step (c : Controller) (ev : Event) : Controller :=
  match ev with
  | Change name value =>
      {| world := onChange name value (world c); suspended := suspended c |}
  | Toggle name =>
      {| world := setShowPassword name (world c); suspended := suspended c |}
  | Submit =>
      match onSubmit (world c) with
      | Done w => {| world := w; suspended := suspended c |}
      | AwaitLogin w _ k => {| world := w; suspended := suspended c ++ [k] |}
      end
  | Settle outcome =>
      match suspended c with
      | k :: rest => {| world := k outcome (world c); suspended := rest |}
      | [] => c
      end
  end.

Definition run (c : Controller) (evs : list Event) : Controller :=
  fold_left step evs c.

Definition mounted : Controller := {| world := initial; suspended := [] |}.

(** The states of the spec's form-flow state machine, read off the
    controller: [Succeeded] once navigation was requested, [Submitting] while
    a submission awaits its outcome, [Editing] otherwise. The spec's
    [Validating] lies inside the synchronous part of [onSubmit] and is never
    the state between two events. *)
Inductive Phase : Type := Editing | Submitting | Succeeded.

Definition isRouterPush (e : Effect) : bool :=
  match e with RouterPush _ => true | _ => false end.

Definition isLogin (e : Effect) : bool :=
  match e with Login _ => true | _ => false end.

Definition isToastError (e : Effect) : bool :=
  match e with ToastError _ => true | _ => false end.

Definition phase (c : Controller) : Phase :=
  if existsb isRouterPush (log (world c)) then Succeeded
  else match suspended c with
       | [] => Editing
       | _ :: _ => Submitting
       end.

(** The validation [onSubmit] runs on the fields of a world. *)
Definition gateError (w : World) : option string :=
  Errors.getLoginFormErrors (prop (formData w) "email") (prop (formData w) "password").

(** The events that are no field change: submits, settlements, and the
    toggles of a property other than the two validated fields (the page only
    ever toggles [showPassword]). *)
Definition quiet (ev : Event) : bool :=
  match ev with
  | Change _ _ => false
  | Toggle name => negb (String.eqb name "email") && negb (String.eqb name "password")
  | Submit => true
  | Settle _ => true
  end.

(** The events of the user editing the form. *)
Definition isEdit (ev : Event) : bool :=
  match ev with
  | Change _ _ => true
  | Toggle _ => true
  | Submit => false
  | Settle _ => false
  end.

(** A continuation that only adds to the log. *)
Definition logOnly (k : Promise unit -> World -> World) : Prop :=
  forall (r : Promise unit) (w : World),
    formData (k r w) = formData w /\ error (k r w) = error w /\
    session (k r w) = session w.

End LoginPage.

(** ** What the login page renders and how its submissions settle
    (src/unnamed/part_000) *)

Module LoginView.
Import JS LoginPage.

(** The two icons of the visibility switch. *)
Inductive Icon : Type := MdVisibility | MdVisibilityOff.

(** [type={formData.showPassword ? "text" : "password"}] of the password
    input. *)
Definition passwordInputType (w : World) : string :=
  if truthy (prop (formData w) "showPassword") then "text" else "password".

(** [formData.showPassword ? <MdVisibility/> : <MdVisibilityOff/>]. *)
Definition visibilityIcon (w : World) : Icon :=
  if truthy (prop (formData w) "showPassword") then MdVisibility else MdVisibilityOff.

(** [value={formData.email}] and [value={formData.password}] of the two
    controlled inputs. *)
Definition emailInputValue (w : World) : Value := prop (formData w) "email".

Definition passwordInputValue (w : World) : Value := prop (formData w) "password".

(** The rest of [onSubmit] after [await login(formData)]: the end of the
    [try] block when the promise resolved, the [catch] block when it
    rejected. *)
Definition afterLogin (settled : Promise unit) (w : World) : World :=
  match settled with
  | Resolved _ =>
      emit (RouterPush "/dashboard")
        (emit (ToastSuccess "Successfully logged in.") w)
  | Rejected _ => emit (ToastError "Invalid credentials.") w
  end.

Definition isToastSuccess (e : Effect) : bool :=
  match e with ToastSuccess _ => true | _ => false end.

(** The page mounted next to a session store holding [st]. *)
Definition mountedWith (st : Store.IUserStore) : Controller :=
  {| world := {| formData := ∅; error := None; session := st; log := [] |};
     suspended := [] |}.

(** A [login] call whose payload the submission gate lets through; any other
    effect. *)
Definition passedGate (e : Effect) : Prop :=
  match e with
  | Login payload =>
      truthyMessage
        (Errors.getLoginFormErrors (prop payload "email") (prop payload "password")) = None
  | _ => True
  end.

(** The facts kept along a run of the page mounted next to [st]: the
    suspended continuations are [afterLogin], the session store holds [st],
    every [login] call in the log passed the gate, every navigation goes to
    the dashboard and follows a success notification, and the resolved and
    the pending submissions together do not outnumber the [login] calls. *)
Definition flowInvariant (st : Store.IUserStore) (c : Controller) : Prop :=
  Forall (fun k => k = afterLogin) (suspended c) /\
  session (world c) = st /\
  Forall passedGate (log (world c)) /\
  List.filter isRouterPush (log (world c)) =
    repeat (RouterPush "/dashboard")
      (length (List.filter isToastSuccess (log (world c)))) /\
  (length (List.filter isToastSuccess (log (world c))) + length (suspended c) <=
    length (List.filter isLogin (log (world c))))%nat.

End LoginView.

(** * Properties *)

(** ** Token normalisation *)

Section Normalisation.
Import JS Utils.

Lemma normalizeAccessToken_cons (x : ascii) (rest : string) :
  normalizeAccessToken (String x rest) =
  if Ascii.eqb x dquote then normalizeAccessToken rest
  else String x (normalizeAccessToken rest).
Proof. unfold normalizeAccessToken. simpl. now destruct (Ascii.eqb x dquote). Qed.

Lemma normalizeAccessToken_quote_free (token : string) :
  contains dquote (normalizeAccessToken token) = false.
Proof.
  induction token as [|x rest IH]; [reflexivity|].
  rewrite normalizeAccessToken_cons.
  destruct (Ascii.eqb x dquote) eqn:E; [exact IH|].
  simpl. now rewrite E.
Qed.

Lemma normalizeAccessToken_fixes_quote_free (token : string) :
  contains dquote token = false -> normalizeAccessToken token = token.
Proof.
  induction token as [|x rest IH]; [reflexivity|].
  simpl. rewrite normalizeAccessToken_cons.
  destruct (Ascii.eqb x dquote); [discriminate|].
  intros H. now rewrite IH.
Qed.

Lemma normalizeAccessToken_append (a b : string) :
  normalizeAccessToken (a +:+ b) = normalizeAccessToken a +:+ normalizeAccessToken b.
Proof.
  induction a as [|x rest IH]; [reflexivity|].
  change (String x rest +:+ b) with (String x (rest +:+ b)).
  rewrite !normalizeAccessToken_cons, IH.
  now destruct (Ascii.eqb x dquote).
Qed.

Lemma normalizeAccessToken_stripLeadingQuotes (s : string) :
  normalizeAccessToken (stripLeadingQuotes s) = normalizeAccessToken s.
Proof.
  induction s as [|x rest IH]; [reflexivity|].
  simpl. rewrite normalizeAccessToken_cons.
  destruct (Ascii.eqb x dquote) eqn:E; [exact IH|].
  rewrite normalizeAccessToken_cons. now rewrite E.
Qed.

Lemma normalizeAccessToken_stripTrailingQuotes (s : string) :
  normalizeAccessToken (stripTrailingQuotes s) = normalizeAccessToken s.
Proof.
  induction s as [|x rest IH]; [reflexivity|].
  simpl. rewrite (normalizeAccessToken_cons x rest), <- IH.
  destruct (stripTrailingQuotes rest) as [|y rest'] eqn:E.
  - destruct (Ascii.eqb x dquote) eqn:Ex; [reflexivity|].
    rewrite normalizeAccessToken_cons. now rewrite Ex.
  - now rewrite normalizeAccessToken_cons.
Qed.

(** On a token whose quotes all wrap it, removing every quote and removing
    the wrapping quotes come to the same. *)
Lemma normalizeAccessToken_wrapping_only (token : string) :
  contains dquote (stripWrappingQuotes token) = false ->
  normalizeAccessToken token = stripWrappingQuotes token.
Proof.
  intros H.
  rewrite <- (normalizeAccessToken_fixes_quote_free _ H).
  unfold stripWrappingQuotes.
  now rewrite normalizeAccessToken_stripTrailingQuotes,
    normalizeAccessToken_stripLeadingQuotes.
Qed.

(** The spec's example: a token wrapped in one pair of quotes. *)
Example normalizeAccessToken_abc123 :
  normalizeAccessToken (String dquote ("abc123" +:+ String dquote "")) = "abc123".
Proof. reflexivity. Qed.

(** C5, as the spec words it, fails: a quote inside the token wraps nothing,
    yet [normalizeAccessToken] removes it. *)
Lemma normalizeAccessToken_strips_inner_quote :
  stripWrappingQuotes ("a" +:+ String dquote "b") = "a" +:+ String dquote "b" /\
  normalizeAccessToken ("a" +:+ String dquote "b") = "ab" /\
  normalizeAccessToken ("a" +:+ String dquote "b") <>
    stripWrappingQuotes ("a" +:+ String dquote "b").
Proof. repeat split. discriminate. Qed.

(** C5, amended: for every token, normalisation removes every double-quote
    character of the token, wrapping or not, and keeps all other characters,
    in their order; the credential the store holds after [setAccessToken] is
    this normalised string. *)
Theorem normalizeAccessToken_removes_every_quote
    (token : string) (st : Store.IUserStore) :
  list_ascii_of_string (normalizeAccessToken token) =
    List.filter (fun x => negb (Ascii.eqb x dquote)) (list_ascii_of_string token) /\
  Store.accessToken (Store.setAccessToken token st) = Some (normalizeAccessToken token).
Proof.
  split; [|reflexivity].
  induction token as [|x rest IH]; [reflexivity|].
  rewrite normalizeAccessToken_cons. simpl.
  destruct (Ascii.eqb x dquote); simpl; [exact IH | now rewrite IH].
Qed.

(** C6: normalising twice gives what normalising once gives. *)
Theorem normalizeAccessToken_idempotent (t : string) :
  normalizeAccessToken (normalizeAccessToken t) = normalizeAccessToken t.
Proof.
  apply normalizeAccessToken_fixes_quote_free, normalizeAccessToken_quote_free.
Qed.

End Normalisation.

(** ** Skill options *)

Section SkillOptions.
Import JS Utils.

Variable upper : ascii -> string.
Variable getCSVData : string -> Promise (list string).

(** The label of a skill, by cases on the skill. *)
Lemma capitalize_cases (str : string) :
  capitalize upper str =
  match str with
  | EmptyString => EmptyString
  | String x rest => toUpperCase upper (String x EmptyString) +:+ rest
  end.
Proof. destruct str as [|x rest]; reflexivity. Qed.

Lemma getSkillsList_resolved (data : list string) :
  getCSVData "lib/constants/technologies.csv" = Resolved data ->
  getSkillsList upper getCSVData =
    Resolved (map (fun skill => {| value := skill; label := capitalize upper skill |}) data).
Proof. intros H. unfold getSkillsList. now rewrite H. Qed.

(** C7: when the CSV collaborator returns [data], [getSkillsList] returns as
    many options as there are raw skills, the i-th option built from the i-th
    skill: its value is the skill itself, its label the skill with its first
    character upper-cased and the rest as it was. *)
Theorem getSkillsList_options (data : list string) :
  getCSVData "lib/constants/technologies.csv" = Resolved data ->
  exists skills : list IOption,
    getSkillsList upper getCSVData = Resolved skills /\
    length skills = length data /\
    forall (i : nat) (skill : string), data !! i = Some skill ->
      exists o : IOption,
        skills !! i = Some o /\
        value o = skill /\
        label o = match skill with
                  | EmptyString => EmptyString
                  | String x rest => toUpperCase upper (String x EmptyString) +:+ rest
                  end.
Proof.
  intros H. eexists. split; [exact (getSkillsList_resolved data H)|].
  split; [apply length_map|].
  intros i skill Hi.
  exists {| value := skill; label := capitalize upper skill |}.
  split; [|split; [reflexivity | apply capitalize_cases]].
  change (map ?f data) with (f <$> data).
  now rewrite list_lookup_fmap, Hi.
Qed.

(** C10: [capitalize] maps the empty string to the empty string, and
    [getSkillsList] returns a list of options, one per skill, whatever the
    CSV result holds; an empty skill gives the option with empty value and
    empty label. *)
Theorem capitalize_empty_getSkillsList_total (data : list string) :
  getCSVData "lib/constants/technologies.csv" = Resolved data ->
  capitalize upper "" = "" /\
  exists skills : list IOption,
    getSkillsList upper getCSVData = Resolved skills /\
    length skills = length data /\
    forall i : nat, data !! i = Some "" ->
      skills !! i = Some {| value := ""; label := "" |}.
Proof.
  intros H. split; [reflexivity|].
  eexists. split; [exact (getSkillsList_resolved data H)|].
  split; [apply length_map|].
  intros i Hi.
  change (map ?f data) with (f <$> data).
  now rewrite list_lookup_fmap, Hi.
Qed.

End SkillOptions.

(** The options of a three-line CSV, with the ASCII case mapping. *)
Lemma getSkillsList_options_witness :
  exists skills : list Utils.IOption,
    Utils.getSkillsList JS.asciiUpper (fun _ => JS.Resolved ["go"; "rust"; "c++"]) =
      JS.Resolved skills /\
    length skills = 3 /\
    forall (i : nat) (skill : string), ["go"; "rust"; "c++"] !! i = Some skill ->
      exists o : Utils.IOption,
        skills !! i = Some o /\
        Utils.value o = skill /\
        Utils.label o = match skill with
                        | EmptyString => EmptyString
                        | String x rest =>
                            JS.toUpperCase JS.asciiUpper (String x EmptyString) +:+ rest
                        end.
Proof.
  apply (getSkillsList_options JS.asciiUpper
           (fun _ => JS.Resolved ["go"; "rust"; "c++"]) ["go"; "rust"; "c++"]).
  reflexivity.
Defined.

Example getSkillsList_three :
  Utils.getSkillsList JS.asciiUpper (fun _ => JS.Resolved ["go"; "rust"; "c++"]) =
  JS.Resolved [ {| Utils.value := "go"; Utils.label := "Go" |};
                {| Utils.value := "rust"; Utils.label := "Rust" |};
                {| Utils.value := "c++"; Utils.label := "C++" |} ].
Proof. reflexivity. Qed.

(** A CSV with an empty line in the middle. *)
Lemma capitalize_empty_getSkillsList_total_witness :
  Utils.capitalize JS.asciiUpper "" = "" /\
  exists skills : list Utils.IOption,
    Utils.getSkillsList JS.asciiUpper (fun _ => JS.Resolved ["go"; ""; "rust"]) =
      JS.Resolved skills /\
    length skills = 3 /\
    forall i : nat, ["go"; ""; "rust"] !! i = Some "" ->
      skills !! i = Some {| Utils.value := ""; Utils.label := "" |}.
Proof.
  apply (capitalize_empty_getSkillsList_total JS.asciiUpper
           (fun _ => JS.Resolved ["go"; ""; "rust"]) ["go"; ""; "rust"]).
  reflexivity.
Defined.

(** ** Session store *)

Section SessionStore.
Import Store.

(** C8: after [logoutUser], [getActivationStatus] answers [false] whatever
    the store held before; [getActivationStatus] leaves the store as it is,
    answers [false] whenever no user is set, and answers (with [false]) on
    the store as created, before any login. *)
Theorem getActivationStatus_after_logout (st : IUserStore) :
  fst (getActivationStatus (logoutUser st)) = false /\
  snd (getActivationStatus st) = st /\
  (user st = None -> fst (getActivationStatus st) = false) /\
  getActivationStatus initial = (false, initial).
Proof.
  repeat split. intros H. unfold getActivationStatus. now rewrite H.
Qed.

End SessionStore.

(** A logged-in, activated user: logging out turns the answer to [false]. *)
Lemma getActivationStatus_after_logout_witness :
  fst (Store.getActivationStatus
         {| Store.user := Some {| Store.userId := "u1"; Store.userEmail := "bob@example.com";
                                  Store.isActivated := true |};
            Store.accessToken := Some "abc123" |}) = true /\
  fst (Store.getActivationStatus
         (Store.logoutUser
            {| Store.user := Some {| Store.userId := "u1"; Store.userEmail := "bob@example.com";
                                     Store.isActivated := true |};
               Store.accessToken := Some "abc123" |})) = false /\
  fst (Store.getActivationStatus (Store.setAccessToken "abc123" Store.initial)) = false.
Proof.
  split; [reflexivity|]. split.
  - apply (getActivationStatus_after_logout
             {| Store.user := Some {| Store.userId := "u1"; Store.userEmail := "bob@example.com";
                                      Store.isActivated := true |};
                Store.accessToken := Some "abc123" |}).
  - apply (getActivationStatus_after_logout (Store.setAccessToken "abc123" Store.initial)).
    reflexivity.
Defined.

(** ** Login validation *)

Section LoginValidation.
Import JS Errors.

Lemma getLoginFormErrors_cascade (email password : Value) :
  getLoginFormErrors email password =
  firstViolated
    [ (missingOrEmpty email, emailRequired);
      (negb (isEmailShaped (text email)), emailInvalid);
      (missingOrEmpty password, passwordRequired);
      ((String.length (text password) <? minPasswordLength)%nat, passwordTooShort) ].
Proof.
  unfold getLoginFormErrors, firstViolated.
  repeat match goal with |- context [if ?b then _ else _] => destruct b end;
    reflexivity.
Qed.

(** Every message of the validator is a non-empty string. *)
Lemma getLoginFormErrors_message_nonempty (email password : Value) (msg : string) :
  getLoginFormErrors email password = Some msg -> String.eqb msg "" = false.
Proof.
  unfold getLoginFormErrors.
  repeat match goal with |- context [if ?b then _ else _] => destruct b end;
    intros [= <-]; reflexivity.
Qed.

Lemma getLoginFormErrors_bad_email (e : string) (password : Value) :
  e <> "" -> isEmailShaped e = false ->
  getLoginFormErrors (Str e) password = Some emailInvalid.
Proof.
  intros Hne Hshape. unfold getLoginFormErrors. simpl.
  destruct (String.eqb_spec e ""); [contradiction|].
  now rewrite Hshape.
Qed.

(** C1: for every pair of field values the validator returns [null] or
    exactly one of its four messages, the message of the first violated rule
    in the order email missing or empty, email shape, password missing or
    empty, password shorter than 6. For an email that fails the shape check
    and a password shorter than 6 the answer is never the password-length
    message, and it is the email-shape message when the email is a non-empty
    string (an empty one is caught by the first rule). *)
Theorem getLoginFormErrors_first_violated_rule (email password : Value) :
  (getLoginFormErrors email password = None \/
   getLoginFormErrors email password = Some emailRequired \/
   getLoginFormErrors email password = Some emailInvalid \/
   getLoginFormErrors email password = Some passwordRequired \/
   getLoginFormErrors email password = Some passwordTooShort) /\
  getLoginFormErrors email password =
    firstViolated
      [ (missingOrEmpty email, emailRequired);
        (negb (isEmailShaped (text email)), emailInvalid);
        (missingOrEmpty password, passwordRequired);
        ((String.length (text password) <? minPasswordLength)%nat, passwordTooShort) ] /\
  (isEmailShaped (text email) = false ->
   String.length (text password) < 6 ->
   getLoginFormErrors email password <> Some passwordTooShort /\
   (missingOrEmpty email = false ->
    getLoginFormErrors email password = Some emailInvalid)).
Proof.
  split; [|split; [apply getLoginFormErrors_cascade|]].
  - unfold getLoginFormErrors.
    repeat match goal with |- context [if ?b then _ else _] => destruct b end;
      auto 6.
  - intros Hshape _. unfold getLoginFormErrors. rewrite Hshape. simpl.
    destruct (missingOrEmpty email); split; try discriminate; auto.
Qed.

End LoginValidation.

(** The spec's scenario: [bob@example] has no dot in its domain, [abc] is too
    short; the email-shape message wins. *)
Lemma getLoginFormErrors_first_violated_rule_witness :
  Errors.getLoginFormErrors (JS.Str "bob@example") (JS.Str "abc") <>
    Some Errors.passwordTooShort /\
  Errors.getLoginFormErrors (JS.Str "bob@example") (JS.Str "abc") =
    Some "Enter a valid email address.".
Proof.
  destruct (getLoginFormErrors_first_violated_rule (JS.Str "bob@example") (JS.Str "abc"))
    as (_ & _ & H).
  destruct (H eq_refl ltac:(simpl; lia)) as [Hn He].
  split; [exact Hn | exact (He eq_refl)].
Defined.

(** The rest of the scenario: with the email fixed the length message shows,
    with the password long enough the error clears. *)
Example getLoginFormErrors_scenario :
  Errors.getLoginFormErrors (JS.Str "bob@example.com") (JS.Str "abc") =
    Some "Password must be at least 6 characters." /\
  Errors.getLoginFormErrors (JS.Str "bob@example.com") (JS.Str "abcdef") = None /\
  Errors.getLoginFormErrors JS.Undefined JS.Undefined = Some "Email is required." /\
  Errors.getLoginFormErrors (JS.Str "bob@example.com") (JS.Str "") =
    Some "Password is required.".
Proof. repeat split. Qed.

(** ** The login page *)

Section LoginPageFacts.
Import JS LoginPage.
Local Open Scope list_scope.

Lemma prop_insert_eq (o : gmap string Value) (k : string) (v : Value) :
  prop (<[k := v]> o) k = v.
Proof. unfold prop. now rewrite lookup_insert_eq. Qed.

Lemma prop_insert_ne (o : gmap string Value) (k k' : string) (v : Value) :
  k <> k' -> prop (<[k := v]> o) k' = prop o k'.
Proof. intros H. unfold prop. now rewrite lookup_insert_ne. Qed.

(** One field change: the error it displays is what the gate computes on the
    fields it leaves. *)
Lemma onChange_error_is_gateError (name value : string) (w : World) :
  error (onChange name value w) = gateError (onChange name value w).
Proof.
  unfold onChange, gateError.
  destruct (String.eqb_spec name "email") as [->|Hemail].
  - simpl. now rewrite prop_insert_eq, prop_insert_ne.
  - destruct (String.eqb_spec name "password") as [->|Hpassword]; simpl.
    + now rewrite prop_insert_eq, prop_insert_ne.
    + now rewrite !prop_insert_ne.
Qed.

Lemma onSubmit_gate_failed (w : World) (msg : string) :
  gateError w = Some msg ->
  onSubmit w = Done (emit (ToastError msg) (emit PreventDefault w)).
Proof.
  intros H. unfold onSubmit. fold (gateError w). rewrite H. simpl.
  now rewrite (getLoginFormErrors_message_nonempty _ _ _ H).
Qed.

Lemma onSubmit_gate_passed (w : World) :
  gateError w = None ->
  exists k : Promise unit -> World -> World,
    onSubmit w =
      AwaitLogin (emit (Login (formData w)) (emit PreventDefault w)) (formData w) k /\
    logOnly k /\
    (forall (reason : string) (w' : World),
        k (Rejected reason) w' = emit (ToastError "Invalid credentials.") w') /\
    (forall (a : unit) (w' : World),
        k (Resolved a) w' =
          emit (RouterPush "/dashboard")
            (emit (ToastSuccess "Successfully logged in.") w')).
Proof.
  intros H. unfold onSubmit. fold (gateError w). rewrite H. simpl.
  eexists. split; [reflexivity|]. split; [|split; reflexivity].
  intros [a|reason] w'; repeat split.
Qed.

(** Whatever [onSubmit] does, it leaves the two state cells and the session
    store alone, and a continuation it suspends only adds to the log. *)
Lemma onSubmit_log_only (w : World) :
  match onSubmit w with
  | Done w' =>
      formData w' = formData w /\ error w' = error w /\ session w' = session w
  | AwaitLogin w' _ k =>
      formData w' = formData w /\ error w' = error w /\ session w' = session w /\
      logOnly k
  end.
Proof.
  destruct (gateError w) as [msg|] eqn:E.
  - rewrite (onSubmit_gate_failed w msg E). repeat split.
  - destruct (onSubmit_gate_passed w E) as (k & -> & Hk & _).
    split; [reflexivity|]. split; [reflexivity|]. split; [reflexivity|exact Hk].
Qed.

Lemma step_logOnly (c : Controller) (ev : Event) :
  Forall logOnly (suspended c) -> Forall logOnly (suspended (step c ev)).
Proof.
  intros H. destruct ev as [name value|name| |outcome]; simpl; try exact H.
  - pose proof (onSubmit_log_only (world c)) as Hs.
    destruct (onSubmit (world c)) as [w'|w' payload k]; simpl; [exact H|].
    apply Forall_app. split; [exact H|].
    constructor; [apply Hs | constructor].
  - destruct (suspended c) as [|k rest] eqn:E; [now rewrite E|].
    simpl. now inversion H.
Qed.

Lemma run_logOnly (evs : list Event) (c : Controller) :
  Forall logOnly (suspended c) -> Forall logOnly (suspended (run c evs)).
Proof.
  revert c. induction evs as [|ev evs IH]; intros c H; [exact H|].
  simpl. apply IH, step_logOnly, H.
Qed.

Lemma quiet_step_agrees (c : Controller) (ev : Event) :
  Forall logOnly (suspended c) -> quiet ev = true ->
  error (world c) = gateError (world c) ->
  error (world (step c ev)) = gateError (world (step c ev)).
Proof.
  intros Hinv Hq Hagree.
  destruct ev as [name value|name| |outcome]; simpl in *.
  - discriminate.
  - apply andb_true_iff in Hq as [He Hp].
    apply negb_true_iff in He, Hp.
    apply String.eqb_neq in He, Hp.
    unfold gateError, setShowPassword. simpl.
    rewrite !prop_insert_ne by assumption. exact Hagree.
  - pose proof (onSubmit_log_only (world c)) as Hs.
    unfold gateError in *.
    destruct (onSubmit (world c)) as [w'|w' payload k]; simpl;
      destruct Hs as (-> & -> & _); exact Hagree.
  - destruct (suspended c) as [|k rest] eqn:E; [exact Hagree|].
    simpl. inversion Hinv as [|? ? Hk _]; subst.
    destruct (Hk outcome (world c)) as (Hf & He & _).
    unfold gateError in *. now rewrite Hf, He.
Qed.

Lemma quiet_run_agrees (evs : list Event) (c : Controller) :
  Forall logOnly (suspended c) -> forallb quiet evs = true ->
  error (world c) = gateError (world c) ->
  error (world (run c evs)) = gateError (world (run c evs)).
Proof.
  revert c. induction evs as [|ev evs IH]; intros c Hinv Hq Hagree; [exact Hagree|].
  simpl in Hq. apply andb_true_iff in Hq as [Hev Hevs].
  simpl. apply IH; [now apply step_logOnly | exact Hevs | now apply quiet_step_agrees].
Qed.

Lemma run_app (c : Controller) (evs evs' : list Event) :
  run c (evs ++ evs') = run (run c evs) evs'.
Proof. apply fold_left_app. Qed.

(** C2: the error a field change displays and the error the submission gate
    computes are the same function of the same fields. After any history, a
    field change and then any events that are no field change, the displayed
    error equals the gate's; so when the displayed error is [null] the gate
    returns [null] and [onSubmit] goes on to call the login collaborator. The
    same holds for one field change from any world whatever. *)
Theorem inline_error_agrees_with_submission_gate
    (history : list Event) (name value : string) (later : list Event) :
  forallb quiet later = true ->
  (forall w : World, error (onChange name value w) = gateError (onChange name value w)) /\
  error (world (run mounted (history ++ Change name value :: later))) =
    gateError (world (run mounted (history ++ Change name value :: later))) /\
  (error (world (run mounted (history ++ Change name value :: later))) = None ->
   gateError (world (run mounted (history ++ Change name value :: later))) = None /\
   exists (w : World) (k : Promise unit -> World -> World),
     onSubmit (world (run mounted (history ++ Change name value :: later))) =
       AwaitLogin w (formData (world (run mounted (history ++ Change name value :: later)))) k).
Proof.
  intros Hq.
  split; [intros w; apply onChange_error_is_gateError|].
  assert (Hagree :
    error (world (run mounted (history ++ Change name value :: later))) =
    gateError (world (run mounted (history ++ Change name value :: later)))).
  { rewrite run_app. simpl.
    apply quiet_run_agrees; [|exact Hq|apply onChange_error_is_gateError].
    apply (step_logOnly _ (Change name value)), run_logOnly. constructor. }
  split; [exact Hagree|].
  intros Hnone. rewrite Hnone in Hagree. symmetry in Hagree.
  split; [exact Hagree|].
  destruct (onSubmit_gate_passed _ Hagree) as (k & Hk & _).
  eexists _, k. exact Hk.
Qed.

Lemma phase_Editing (c : Controller) :
  phase c = Editing <->
  existsb isRouterPush (log (world c)) = false /\ suspended c = [].
Proof.
  unfold phase.
  destruct (existsb isRouterPush (log (world c))); [split; [|intros [? _]]; discriminate|].
  destruct (suspended c); split; try tauto; try discriminate.
  intros [_ ?]. discriminate.
Qed.

(** C3: when the submission gate finds an error, [onSubmit] raises one error
    notification carrying it and ends: the login collaborator is not called
    (the log gains no [Login] entry and no submission is left awaiting an
    outcome), the form's cells and the session store stay as they are, and a
    controller that was [Editing] is still [Editing]. *)
Theorem onSubmit_gate_failure_blocks_login (c : Controller) (msg : string) :
  gateError (world c) = Some msg ->
  log (world (step c Submit)) = log (world c) ++ [PreventDefault; ToastError msg] /\
  List.filter isLogin (log (world (step c Submit))) = List.filter isLogin (log (world c)) /\
  suspended (step c Submit) = suspended c /\
  formData (world (step c Submit)) = formData (world c) /\
  error (world (step c Submit)) = error (world c) /\
  session (world (step c Submit)) = session (world c) /\
  (phase c = Editing -> phase (step c Submit) = Editing).
Proof.
  intros H. simpl. rewrite (onSubmit_gate_failed _ _ H). simpl.
  assert (Hlog : (log (world c) ++ [PreventDefault]) ++ [ToastError msg] =
                 log (world c) ++ [PreventDefault; ToastError msg])
    by now rewrite <- app_assoc.
  split; [exact Hlog|].
  split; [rewrite Hlog, List.filter_app; simpl; apply app_nil_r|].
  do 4 (split; [reflexivity|]).
  rewrite !phase_Editing. simpl. intros [Hpush Hsusp].
  split; [|exact Hsusp].
  rewrite Hlog, existsb_app, Hpush. reflexivity.
Qed.

Lemma onChange_frame (name value : string) (w : World) :
  formData (onChange name value w) = <[name := Str value]> (formData w) /\
  log (onChange name value w) = log w /\
  session (onChange name value w) = session w.
Proof.
  unfold onChange.
  destruct (String.eqb name "email"); [|destruct (String.eqb name "password")];
    repeat split.
Qed.

Lemma step_Settle_cons
    (c : Controller) (k : Promise unit -> World -> World)
    (rest : list (Promise unit -> World -> World)) (outcome : Promise unit) :
  suspended c = k :: rest ->
  step c (Settle outcome) = {| world := k outcome (world c); suspended := rest |}.
Proof. intros H. simpl. now rewrite H. Qed.

Lemma edit_step_frame (c : Controller) (ev : Event) :
  isEdit ev = true ->
  log (world (step c ev)) = log (world c) /\
  session (world (step c ev)) = session (world c) /\
  suspended (step c ev) = suspended c.
Proof.
  destruct ev as [name value|name| |outcome]; simpl; intros H; try discriminate H.
  - destruct (onChange_frame name value (world c)) as (_ & -> & ->). repeat split.
  - repeat split.
Qed.

Lemma edit_run_frame (evs : list Event) (c : Controller) :
  forallb isEdit evs = true ->
  log (world (run c evs)) = log (world c) /\
  session (world (run c evs)) = session (world c) /\
  suspended (run c evs) = suspended c.
Proof.
  revert c. induction evs as [|ev evs IH]; intros c H; [repeat split|].
  simpl in H. apply andb_true_iff in H as [Hev Hevs].
  simpl. destruct (IH (step c ev) Hevs) as (-> & -> & ->).
  now apply edit_step_frame.
Qed.

(** C4: a submission that passes the gate suspends the controller in
    [Submitting]; when the login collaborator then rejects, whatever its
    reason and whatever the user edited meanwhile, the controller is back in
    [Editing], the page has called the collaborator once and raised one error
    notification, with the fixed text [Invalid credentials.], and the session
    store is as it was. *)
Theorem rejected_login_reports_invalid_credentials
    (c : Controller) (edits : list Event) (reason : string) :
  phase c = Editing ->
  gateError (world c) = None ->
  forallb isEdit edits = true ->
  phase (step c Submit) = Submitting /\
  phase (step (run (step c Submit) edits) (Settle (Rejected reason))) = Editing /\
  log (world (step (run (step c Submit) edits) (Settle (Rejected reason)))) =
    log (world c) ++
      [PreventDefault; Login (formData (world c)); ToastError "Invalid credentials."] /\
  List.filter isToastError
      (log (world (step (run (step c Submit) edits) (Settle (Rejected reason))))) =
    List.filter isToastError (log (world c)) ++ [ToastError "Invalid credentials."] /\
  session (world (step (run (step c Submit) edits) (Settle (Rejected reason)))) =
    session (world c).
Proof.
  intros Hphase Hgate Hedits.
  apply phase_Editing in Hphase as [Hpush Hsusp].
  destruct (onSubmit_gate_passed _ Hgate) as (k & Hk & _ & Hrej & _).
  assert (Hsubmit : step c Submit =
    {| world := emit (Login (formData (world c))) (emit PreventDefault (world c));
       suspended := [k] |}).
  { simpl. rewrite Hk, Hsusp. reflexivity. }
  split.
  { rewrite Hsubmit. unfold phase. simpl.
    now rewrite !existsb_app, Hpush. }
  destruct (edit_run_frame edits (step c Submit) Hedits) as (Hlog & Hsess & Hsus).
  assert (Hsus' : suspended (run (step c Submit) edits) = [k])
    by (rewrite Hsus, Hsubmit; reflexivity).
  assert (Hlog' : log (world (run (step c Submit) edits)) =
                  (log (world c) ++ [PreventDefault]) ++ [Login (formData (world c))])
    by (rewrite Hlog, Hsubmit; reflexivity).
  assert (Hsess' : session (world (run (step c Submit) edits)) = session (world c))
    by (rewrite Hsess, Hsubmit; reflexivity).
  rewrite (step_Settle_cons _ k [] _ Hsus'), Hrej.
  assert (Hlog2 :
    log (emit (ToastError "Invalid credentials.") (world (run (step c Submit) edits))) =
    log (world c) ++
      [PreventDefault; Login (formData (world c)); ToastError "Invalid credentials."]).
  { unfold emit. cbn [log]. rewrite Hlog'. now rewrite <- !app_assoc. }
  split; [|split; [exact Hlog2|split]].
  - apply phase_Editing. split; [|reflexivity].
    cbn [world]. now rewrite Hlog2, existsb_app, Hpush.
  - cbn [world]. rewrite Hlog2, List.filter_app. reflexivity.
  - exact Hsess'.
Qed.

(** C9: toggling [showPassword] sets that property to its negation and
    nothing else: every other property of the form, the email and password
    among them, the displayed error, the log, the session store and the
    controller's phase are as before. Validation is not run again: the
    displayed error is kept even where it differs from what validating the
    fields would give, as on the freshly mounted page. *)
Theorem setShowPassword_flips_only_the_flag (c : Controller) :
  prop (formData (setShowPassword "showPassword" (world c))) "showPassword" =
    logicalNot (prop (formData (world c)) "showPassword") /\
  (forall k : string, k <> "showPassword" ->
     formData (setShowPassword "showPassword" (world c)) !! k = formData (world c) !! k) /\
  prop (formData (setShowPassword "showPassword" (world c))) "email" =
    prop (formData (world c)) "email" /\
  prop (formData (setShowPassword "showPassword" (world c))) "password" =
    prop (formData (world c)) "password" /\
  error (setShowPassword "showPassword" (world c)) = error (world c) /\
  log (setShowPassword "showPassword" (world c)) = log (world c) /\
  session (setShowPassword "showPassword" (world c)) = session (world c) /\
  world (step c (Toggle "showPassword")) = setShowPassword "showPassword" (world c) /\
  phase (step c (Toggle "showPassword")) = phase c /\
  error (setShowPassword "showPassword" initial) = None /\
  gateError (setShowPassword "showPassword" initial) = Some Errors.emailRequired.
Proof.
  unfold setShowPassword. simpl.
  split; [apply prop_insert_eq|].
  split; [intros k Hk; now apply lookup_insert_ne|].
  split; [now apply prop_insert_ne|].
  split; [now apply prop_insert_ne|].
  repeat split.
Qed.

End LoginPageFacts.

(** *** The theorems at concrete forms *)

(** A form filled in with a well-formed email and a six-letter password, the
    password typed first, the visibility flag toggled last. *)
Lemma inline_error_agrees_with_submission_gate_witness :
  LoginPage.error
    (LoginPage.world
       (LoginPage.run LoginPage.mounted
          ([LoginPage.Change "password" "abcdef"] ++
           LoginPage.Change "email" "bob@example.com" ::
           [LoginPage.Toggle "showPassword"]))) = None /\
  LoginPage.gateError
    (LoginPage.world
       (LoginPage.run LoginPage.mounted
          ([LoginPage.Change "password" "abcdef"] ++
           LoginPage.Change "email" "bob@example.com" ::
           [LoginPage.Toggle "showPassword"]))) = None.
Proof.
  destruct (inline_error_agrees_with_submission_gate
              [LoginPage.Change "password" "abcdef"] "email" "bob@example.com"
              [LoginPage.Toggle "showPassword"] eq_refl) as (_ & _ & H).
  split; [vm_compute; reflexivity|].
  apply H. vm_compute. reflexivity.
Defined.

(** Submitting the freshly mounted, empty form. *)
Lemma onSubmit_gate_failure_blocks_login_witness :
  LoginPage.gateError (LoginPage.world LoginPage.mounted) = Some "Email is required." /\
  LoginPage.log (LoginPage.world (LoginPage.step LoginPage.mounted LoginPage.Submit)) =
    [LoginPage.PreventDefault; LoginPage.ToastError "Email is required."] /\
  LoginPage.phase (LoginPage.step LoginPage.mounted LoginPage.Submit) = LoginPage.Editing.
Proof.
  split; [reflexivity|].
  destruct (onSubmit_gate_failure_blocks_login LoginPage.mounted "Email is required."
              eq_refl) as (Hlog & _ & _ & _ & _ & _ & Hphase).
  split; [exact Hlog | exact (Hphase eq_refl)].
Defined.

(** A well-formed submission that the backend answers with 401, the user
    toggling the password's visibility while waiting. *)
Lemma rejected_login_reports_invalid_credentials_witness :
  LoginPage.phase
    (LoginPage.step
       (LoginPage.run
          (LoginPage.step
             (LoginPage.run LoginPage.mounted
                [LoginPage.Change "email" "bob@example.com";
                 LoginPage.Change "password" "abcdef"])
             LoginPage.Submit)
          [LoginPage.Toggle "showPassword"])
       (LoginPage.Settle (JS.Rejected "Request failed with status code 401"))) =
    LoginPage.Editing /\
  LoginPage.session
    (LoginPage.world
       (LoginPage.step
          (LoginPage.run
             (LoginPage.step
                (LoginPage.run LoginPage.mounted
                   [LoginPage.Change "email" "bob@example.com";
                    LoginPage.Change "password" "abcdef"])
                LoginPage.Submit)
             [LoginPage.Toggle "showPassword"])
          (LoginPage.Settle (JS.Rejected "Request failed with status code 401")))) =
    Store.initial.
Proof.
  destruct (rejected_login_reports_invalid_credentials
              (LoginPage.run LoginPage.mounted
                 [LoginPage.Change "email" "bob@example.com";
                  LoginPage.Change "password" "abcdef"])
              [LoginPage.Toggle "showPassword"]
              "Request failed with status code 401")
    as (_ & Hphase & _ & _ & Hsession).
  - vm_compute. reflexivity.
  - vm_compute. reflexivity.
  - reflexivity.
  - split; [exact Hphase | exact Hsession].
Defined.

(** Toggling on the freshly mounted page: [showPassword] becomes [true], the
    email stays absent. *)
Lemma setShowPassword_flips_only_the_flag_witness :
  LoginPage.formData
    (LoginPage.setShowPassword "showPassword" (LoginPage.world LoginPage.mounted))
    !! "email" = None /\
  JS.prop
    (LoginPage.formData
       (LoginPage.setShowPassword "showPassword" (LoginPage.world LoginPage.mounted)))
    "showPassword" = JS.Bool true.
Proof.
  destruct (setShowPassword_flips_only_the_flag LoginPage.mounted) as (Hflag & Hother & _).
  split.
  - rewrite (Hother "email"); [reflexivity | discriminate].
  - rewrite Hflag. reflexivity.
Defined.

(** The spec's scenario on the page: typing [abc] as password, then
    [bob@example] as email, shows the email-shape message; fixing the email
    shows the length message; a six-letter password clears the error. *)
Example onChange_scenario :
  map (fun evs => LoginPage.error (LoginPage.world (LoginPage.run LoginPage.mounted evs)))
    [ [LoginPage.Change "password" "abc"; LoginPage.Change "email" "bob@example"];
      [LoginPage.Change "password" "abc"; LoginPage.Change "email" "bob@example";
       LoginPage.Change "email" "bob@example.com"];
      [LoginPage.Change "password" "abc"; LoginPage.Change "email" "bob@example";
       LoginPage.Change "email" "bob@example.com"; LoginPage.Change "password" "abcdef"] ] =
  [ Some "Enter a valid email address.";
    Some "Password must be at least 6 characters.";
    None ].
Proof. vm_compute. reflexivity. Qed.

(** A successful login: the collaborator is called with the form's fields,
    then the success notification and the navigation follow. *)
Example onSubmit_success_log :
  LoginPage.log
    (LoginPage.world
       (LoginPage.run LoginPage.mounted
          [LoginPage.Change "email" "bob@example.com";
           LoginPage.Change "password" "abcdef";
           LoginPage.Submit;
           LoginPage.Settle (JS.Resolved tt)])) =
  [ LoginPage.PreventDefault;
    LoginPage.Login (<["password" := JS.Str "abcdef"]>
                       (<["email" := JS.Str "bob@example.com"]> ∅));
    LoginPage.ToastSuccess "Successfully logged in.";
    LoginPage.RouterPush "/dashboard" ].
Proof. vm_compute. reflexivity. Qed.

(** * Further properties of the sources *)

(** ** More on [normalizeAccessToken] *)

Section NormalisationMore.
Import JS Utils.

(** X1: normalising a concatenation gives the concatenation of the
    normalised parts, so a token may be normalised piece by piece. *)
Theorem normalizeAccessToken_distributes (a b : string) :
  normalizeAccessToken (a +:+ b) = normalizeAccessToken a +:+ normalizeAccessToken b.
Proof. apply normalizeAccessToken_append. Qed.

(** X2: normalisation shortens the token by exactly the number of its double
    quotes; it never lengthens it. *)
Theorem normalizeAccessToken_length (token : string) :
  String.length token =
    String.length (normalizeAccessToken token) +
    List.length (List.filter (fun x => Ascii.eqb x dquote) (list_ascii_of_string token)) /\
  String.length (normalizeAccessToken token) <= String.length token.
Proof.
  assert (H : String.length token =
    String.length (normalizeAccessToken token) +
    List.length (List.filter (fun x => Ascii.eqb x dquote) (list_ascii_of_string token))).
  { induction token as [|x rest IH]; [reflexivity|].
    rewrite normalizeAccessToken_cons. simpl.
    destruct (Ascii.eqb x dquote); simpl; lia. }
  split; [exact H | lia].
Qed.

(** X3: the tokens normalisation leaves as they are are exactly those with
    no double quote. *)
Theorem normalizeAccessToken_fixed_iff (token : string) :
  normalizeAccessToken token = token <-> contains dquote token = false.
Proof.
  split; [|apply normalizeAccessToken_fixes_quote_free].
  intros H. rewrite <- H. apply normalizeAccessToken_quote_free.
Qed.

(** X4: the normalised token is empty exactly when the token consists of
    double quotes only (the empty token among them); so a non-empty token can
    normalise to the empty string. *)
Theorem normalizeAccessToken_empty_iff (token : string) :
  normalizeAccessToken token = "" <->
  forallb (fun x => Ascii.eqb x dquote) (list_ascii_of_string token) = true.
Proof.
  induction token as [|x rest IH]; [split; reflexivity|].
  rewrite normalizeAccessToken_cons. simpl.
  destruct (Ascii.eqb x dquote); simpl; [exact IH|].
  split; discriminate.
Qed.

End NormalisationMore.

Lemma normalizeAccessToken_fixed_iff_witness :
  Utils.normalizeAccessToken "abc123" = "abc123" /\
  JS.contains JS.dquote (String JS.dquote "abc") = true /\
  Utils.normalizeAccessToken (String JS.dquote "abc") <> String JS.dquote "abc".
Proof.
  split; [apply (normalizeAccessToken_fixed_iff "abc123"); reflexivity|].
  split; [reflexivity|].
  intros H. apply (normalizeAccessToken_fixed_iff (String JS.dquote "abc")) in H.
  discriminate H.
Defined.

(** A token made of two double quotes. *)
Lemma normalizeAccessToken_empty_iff_witness :
  String.length (String JS.dquote (String JS.dquote "")) = 2 /\
  Utils.normalizeAccessToken (String JS.dquote (String JS.dquote "")) = "".
Proof.
  split; [reflexivity|].
  apply (normalizeAccessToken_empty_iff (String JS.dquote (String JS.dquote ""))).
  reflexivity.
Defined.

(** ** More on [capitalize] and [getSkillsList] *)

Section SkillOptionsMore.
Import JS Utils.

Variable upper : ascii -> string.
Variable getCSVData : string -> Promise (list string).

Lemma append_empty_r (s : string) : s +:+ "" = s.
Proof.
  induction s as [|x rest IH]; [reflexivity|].
  change (String x rest +:+ "") with (String x (rest +:+ "")). now rewrite IH.
Qed.

Lemma capitalize_cons (x : ascii) (rest : string) :
  capitalize upper (String x rest) = upper x +:+ rest.
Proof.
  rewrite capitalize_cases.
  change (toUpperCase upper (String x "")) with (upper x +:+ "").
  now rewrite append_empty_r.
Qed.

(** [charAt(0)] and [slice(1)] cut a string in two without loss. *)
Lemma charAt_slice (s : string) : charAt 0 s +:+ slice 1 s = s.
Proof. destruct s; reflexivity. Qed.

(** X5: a string whose first character is its own upper case (a capital, a
    digit, a sign) is returned unchanged. *)
Theorem capitalize_fixed (x : ascii) (rest : string) :
  upper x = String x "" ->
  capitalize upper (String x rest) = String x rest.
Proof. intros H. now rewrite capitalize_cons, H. Qed.

(** X6: capitalising twice is capitalising once, provided the case mapping
    gives every character a non-empty upper case whose first character is its
    own upper case (as [toUpperCase] does on letters). *)
Theorem capitalize_idempotent (str : string) :
  (forall x : ascii, exists (y : ascii) (ys : string),
      upper x = String y ys /\ upper y = String y "") ->
  capitalize upper (capitalize upper str) = capitalize upper str.
Proof.
  intros Hupper. destruct str as [|x rest]; [reflexivity|].
  rewrite capitalize_cons.
  destruct (Hupper x) as (y & ys & -> & Hy).
  change (String y ys +:+ rest) with (String y (ys +:+ rest)).
  now rewrite capitalize_cons, Hy.
Qed.

(** X7: [getSkillsList] has no handler of its own: when the CSV collaborator
    rejects, it rejects with the same reason and builds no option. *)
Theorem getSkillsList_rejected (reason : string) :
  getCSVData "lib/constants/technologies.csv" = Rejected reason ->
  getSkillsList upper getCSVData = Rejected reason.
Proof. intros H. unfold getSkillsList. now rewrite H. Qed.

(** X8: the raw CSV list is read back from the options' values: nothing is
    dropped, reordered, merged or trimmed, duplicates and empty lines
    included. *)
Theorem getSkillsList_values (data : list string) :
  getCSVData "lib/constants/technologies.csv" = Resolved data ->
  exists skills : list IOption,
    getSkillsList upper getCSVData = Resolved skills /\
    map value skills = data.
Proof.
  intros H. eexists. split; [exact (getSkillsList_resolved upper getCSVData data H)|].
  rewrite map_map. simpl. apply map_id.
Qed.

End SkillOptionsMore.

(** The ASCII case mapping sends every character to one character that is
    its own upper case. *)
Lemma asciiUpper_stable (x : ascii) :
  exists (y : ascii) (ys : string),
    JS.asciiUpper x = String y ys /\ JS.asciiUpper y = String y "".
Proof.
  destruct x as [[] [] [] [] [] [] [] []];
    (eexists; eexists; split; vm_compute; reflexivity).
Qed.

Lemma capitalize_fixed_witness :
  Utils.capitalize JS.asciiUpper "React" = "React" /\
  Utils.capitalize JS.asciiUpper "3d-modelling" = "3d-modelling".
Proof.
  split.
  - apply (capitalize_fixed JS.asciiUpper "R" "eact"). reflexivity.
  - apply (capitalize_fixed JS.asciiUpper "3" "d-modelling"). reflexivity.
Defined.

Lemma capitalize_idempotent_witness :
  Utils.capitalize JS.asciiUpper (Utils.capitalize JS.asciiUpper "rust") =
  Utils.capitalize JS.asciiUpper "rust".
Proof.
  apply (capitalize_idempotent JS.asciiUpper "rust"). exact asciiUpper_stable.
Defined.

Lemma getSkillsList_rejected_witness :
  Utils.getSkillsList JS.asciiUpper (fun _ => JS.Rejected "ENOENT") = JS.Rejected "ENOENT".
Proof.
  apply (getSkillsList_rejected JS.asciiUpper (fun _ => JS.Rejected "ENOENT") "ENOENT").
  reflexivity.
Defined.

Lemma getSkillsList_values_witness :
  exists skills : list Utils.IOption,
    Utils.getSkillsList JS.asciiUpper (fun _ => JS.Resolved ["go"; "go"; ""; "rust"]) =
      JS.Resolved skills /\
    map Utils.value skills = ["go"; "go"; ""; "rust"].
Proof.
  apply (getSkillsList_values JS.asciiUpper
           (fun _ => JS.Resolved ["go"; "go"; ""; "rust"]) ["go"; "go"; ""; "rust"]).
  reflexivity.
Defined.

(** ** More on the login page's handlers *)

Section LoginHandlersMore.
Import JS LoginPage LoginView.
Local Open Scope list_scope.

Lemma world_ext (w1 w2 : World) :
  formData w1 = formData w2 -> error w1 = error w2 ->
  session w1 = session w2 -> log w1 = log w2 -> w1 = w2.
Proof. destruct w1, w2. simpl. now intros -> -> -> ->. Qed.

Lemma gateError_ext (w1 w2 : World) :
  formData w1 = formData w2 -> gateError w1 = gateError w2.
Proof. unfold gateError. now intros ->. Qed.

Lemma onChange_formData (name value : string) (w : World) :
  formData (onChange name value w) = <[name := Str value]> (formData w).
Proof. apply onChange_frame. Qed.

Lemma onChange_log (name value : string) (w : World) :
  log (onChange name value w) = log w.
Proof. apply onChange_frame. Qed.

Lemma onChange_session (name value : string) (w : World) :
  session (onChange name value w) = session w.
Proof. apply onChange_frame. Qed.

(** X9: a field change stores the typed value under the field's name and
    touches no other property of the form; it calls no collaborator and
    leaves the session store alone. *)
Theorem onChange_sets_only_named_field (name value : string) (w : World) :
  prop (formData (onChange name value w)) name = Str value /\
  (forall k : string, k <> name ->
     formData (onChange name value w) !! k = formData w !! k) /\
  log (onChange name value w) = log w /\
  session (onChange name value w) = session w.
Proof.
  rewrite onChange_formData, onChange_log, onChange_session.
  split; [apply prop_insert_eq|].
  split; [|split; reflexivity].
  intros k Hk. apply lookup_insert_ne. congruence.
Qed.

(** X10: of two changes of the same field only the last one counts: the
    form, the displayed error and everything else are as if the first had not
    happened. *)
Theorem onChange_last_write_wins (name v1 v2 : string) (w : World) :
  onChange name v2 (onChange name v1 w) = onChange name v2 w.
Proof.
  assert (Hfd : formData (onChange name v2 (onChange name v1 w)) =
                formData (onChange name v2 w)).
  { rewrite !onChange_formData. apply insert_insert_eq. }
  apply world_ext.
  - exact Hfd.
  - rewrite !onChange_error_is_gateError. now apply gateError_ext.
  - now rewrite !onChange_session.
  - now rewrite !onChange_log.
Qed.

(** X11: changes of two different fields commute: whichever is typed first,
    the form and the displayed error end up the same. *)
Theorem onChange_distinct_fields_commute (n1 n2 v1 v2 : string) (w : World) :
  n1 <> n2 ->
  onChange n1 v1 (onChange n2 v2 w) = onChange n2 v2 (onChange n1 v1 w).
Proof.
  intros Hne.
  assert (Hfd : formData (onChange n1 v1 (onChange n2 v2 w)) =
                formData (onChange n2 v2 (onChange n1 v1 w))).
  { rewrite !onChange_formData. now apply insert_insert_ne. }
  apply world_ext.
  - exact Hfd.
  - rewrite (onChange_error_is_gateError n1), (onChange_error_is_gateError n2).
    now apply gateError_ext.
  - now rewrite !onChange_session.
  - now rewrite !onChange_log.
Qed.

(** X12: toggling a property twice brings back its truth value, as a
    boolean; when the property held a boolean already, the whole page state
    is back to what it was. *)
Theorem setShowPassword_twice (name : string) (w : World) :
  prop (formData (setShowPassword name (setShowPassword name w))) name =
    Bool (truthy (prop (formData w) name)) /\
  (forall b : bool, formData w !! name = Some (Bool b) ->
     setShowPassword name (setShowPassword name w) = w).
Proof.
  assert (Hfd : formData (setShowPassword name (setShowPassword name w)) =
                <[name := Bool (truthy (prop (formData w) name))]> (formData w)).
  { unfold setShowPassword. simpl.
    rewrite prop_insert_eq, insert_insert_eq.
    unfold logicalNot. simpl. now rewrite negb_involutive. }
  split; [rewrite Hfd; apply prop_insert_eq|].
  intros b Hb. apply world_ext; try reflexivity.
  rewrite Hfd. apply insert_id.
  unfold prop. now rewrite Hb.
Qed.

(** X13: the password input is masked exactly when the closed-eye icon
    shows; one toggle of [showPassword] switches the input between masked and
    plain text, and a change of any other field leaves it as it is. *)
Theorem passwordInputType_follows_toggle (w : World) :
  (passwordInputType w = "text" /\ visibilityIcon w = MdVisibility \/
   passwordInputType w = "password" /\ visibilityIcon w = MdVisibilityOff) /\
  passwordInputType (setShowPassword "showPassword" w) =
    (if String.eqb (passwordInputType w) "text" then "password" else "text") /\
  (forall name value : string, name <> "showPassword" ->
     passwordInputType (onChange name value w) = passwordInputType w).
Proof.
  unfold passwordInputType, visibilityIcon.
  split; [destruct (truthy (prop (formData w) "showPassword")); auto|].
  split.
  - unfold setShowPassword. simpl. rewrite prop_insert_eq. simpl.
    now destruct (truthy (prop (formData w) "showPassword")).
  - intros name value Hne.
    now rewrite onChange_formData, prop_insert_ne.
Qed.

End LoginHandlersMore.

Lemma onChange_sets_only_named_field_witness :
  LoginView.emailInputValue (LoginPage.onChange "email" "bob@example.com" LoginPage.initial) =
    JS.Str "bob@example.com" /\
  LoginPage.formData (LoginPage.onChange "email" "bob@example.com" LoginPage.initial)
    !! "password" = None.
Proof.
  destruct (onChange_sets_only_named_field "email" "bob@example.com" LoginPage.initial)
    as (Hset & Hother & _).
  split; [exact Hset|].
  rewrite (Hother "password"); [reflexivity | discriminate].
Defined.

Lemma onChange_distinct_fields_commute_witness :
  LoginPage.onChange "email" "bob@example" (LoginPage.onChange "password" "abc" LoginPage.initial) =
  LoginPage.onChange "password" "abc" (LoginPage.onChange "email" "bob@example" LoginPage.initial).
Proof.
  apply (onChange_distinct_fields_commute "email" "password"). discriminate.
Defined.

(** Toggling twice on a page whose flag is [true]. *)
Lemma setShowPassword_twice_witness :
  LoginPage.setShowPassword "showPassword"
    (LoginPage.setShowPassword "showPassword"
       (LoginPage.setShowPassword "showPassword" LoginPage.initial)) =
  LoginPage.setShowPassword "showPassword" LoginPage.initial.
Proof.
  destruct (setShowPassword_twice "showPassword"
              (LoginPage.setShowPassword "showPassword" LoginPage.initial)) as (_ & H).
  apply (H true). vm_compute. reflexivity.
Defined.

Lemma passwordInputType_follows_toggle_witness :
  LoginView.passwordInputType LoginPage.initial = "password" /\
  LoginView.passwordInputType (LoginPage.setShowPassword "showPassword" LoginPage.initial) =
    "text" /\
  LoginView.passwordInputType
    (LoginPage.onChange "password" "abcdef"
       (LoginPage.setShowPassword "showPassword" LoginPage.initial)) = "text".
Proof.
  split; [reflexivity|].
  destruct (passwordInputType_follows_toggle LoginPage.initial) as (_ & Hflip & _).
  destruct (passwordInputType_follows_toggle
              (LoginPage.setShowPassword "showPassword" LoginPage.initial))
    as (_ & _ & Hkeep).
  split; [exact Hflip|].
  rewrite (Hkeep "password" "abcdef"); [exact Hflip | discriminate].
Defined.

(** ** More on submissions: what holds along every run of the page *)

Section LoginFlowMore.
Import JS LoginPage LoginView.
Local Open Scope list_scope.

Lemma emit_log (e : Effect) (w : World) : log (emit e w) = log w ++ [e].
Proof. reflexivity. Qed.

(** What [onSubmit] suspends is always the same continuation. *)
Lemma onSubmit_afterLogin (w : World) :
  gateError w = None ->
  onSubmit w =
    AwaitLogin (emit (Login (formData w)) (emit PreventDefault w)) (formData w) afterLogin.
Proof.
  intros H. unfold onSubmit. fold (gateError w). now rewrite H.
Qed.

Lemma afterLogin_logOnly : logOnly afterLogin.
Proof. intros [a|reason] w; repeat split. Qed.

Lemma step_Submit_failed (c : Controller) (msg : string) :
  gateError (world c) = Some msg ->
  step c Submit =
    {| world := emit (ToastError msg) (emit PreventDefault (world c));
       suspended := suspended c |}.
Proof. intros H. simpl. now rewrite (onSubmit_gate_failed _ _ H). Qed.

Lemma step_Submit_passed (c : Controller) :
  gateError (world c) = None ->
  step c Submit =
    {| world := emit (Login (formData (world c))) (emit PreventDefault (world c));
       suspended := suspended c ++ [afterLogin] |}.
Proof. intros H. simpl. now rewrite (onSubmit_afterLogin _ H). Qed.

Lemma step_suspended_afterLogin (c : Controller) (ev : Event) :
  Forall (fun k => k = afterLogin) (suspended c) ->
  Forall (fun k => k = afterLogin) (suspended (step c ev)).
Proof.
  intros H. destruct ev as [name value|name| |outcome]; try exact H.
  - destruct (gateError (world c)) as [msg|] eqn:E.
    + now rewrite (step_Submit_failed _ _ E).
    + rewrite (step_Submit_passed _ E). simpl.
      apply Forall_app. split; [exact H|]. now constructor.
  - simpl. destruct (suspended c) as [|k rest] eqn:E; [now rewrite E|].
    simpl. now inversion H.
Qed.

Lemma flowInvariant_step (st : Store.IUserStore) (c : Controller) (ev : Event) :
  flowInvariant st c -> flowInvariant st (step c ev).
Proof.
  intros (Hk & Hs & Hg & Hp & Hn).
  split; [now apply step_suspended_afterLogin|].
  destruct ev as [name value|name| |outcome].
  - simpl. rewrite onChange_session, onChange_log. auto.
  - simpl. auto.
  - destruct (gateError (world c)) as [msg|] eqn:E.
    + rewrite (step_Submit_failed _ _ E). cbn [world suspended].
      rewrite !emit_log, <- app_assoc, !List.filter_app. simpl.
      rewrite !app_nil_r.
      split; [exact Hs|]. split; [|auto].
      apply Forall_app. split; [exact Hg|]. repeat constructor.
    + rewrite (step_Submit_passed _ E). cbn [world suspended].
      rewrite !emit_log, <- app_assoc, !List.filter_app. simpl.
      rewrite !app_nil_r, !length_app. simpl.
      split; [exact Hs|]. split; [|split; [exact Hp | lia]].
      apply Forall_app. split; [exact Hg|].
      constructor; [exact I|]. constructor; [|constructor].
      simpl. fold (gateError (world c)). now rewrite E.
  - simpl. destruct (suspended c) as [|k rest] eqn:E.
    + rewrite E. auto.
    + pose proof (Forall_inv Hk) as Hka. simpl in Hka. rewrite Hka.
      cbn [world suspended]. simpl in Hn.
      destruct outcome as [a|reason]; unfold afterLogin.
      * rewrite !emit_log, <- app_assoc, !List.filter_app. simpl.
        rewrite !length_app. simpl.
        split; [exact Hs|]. split; [|split].
        -- apply Forall_app. split; [exact Hg|]. repeat constructor.
        -- rewrite Hp, Nat.add_1_r. symmetry. apply repeat_cons.
        -- lia.
      * rewrite !emit_log, !List.filter_app. simpl. rewrite !app_nil_r.
        split; [exact Hs|]. split; [|split; [exact Hp | lia]].
        apply Forall_app. split; [exact Hg|]. repeat constructor.
Qed.

Lemma flowInvariant_run (st : Store.IUserStore) (evs : list Event) (c : Controller) :
  flowInvariant st c -> flowInvariant st (run c evs).
Proof.
  revert c. induction evs as [|ev evs IH]; intros c H; [exact H|].
  simpl. apply IH, flowInvariant_step, H.
Qed.

Lemma flowInvariant_mounted (st : Store.IUserStore) : flowInvariant st (mountedWith st).
Proof. repeat split; simpl; try constructor. Qed.


(** X15: along every run of the page, each [login] call carries a payload on
    which the validator returns [null]: no payload the gate would refuse
    reaches the collaborator. *)
Theorem login_payloads_passed_gate
    (st : Store.IUserStore) (evs : list Event) (payload : gmap string Value) :
  In (Login payload) (log (world (run (mountedWith st) evs))) ->
  Errors.getLoginFormErrors (prop payload "email") (prop payload "password") = None.
Proof.
  intros Hin.
  destruct (flowInvariant_run st evs _ (flowInvariant_mounted st)) as (_ & _ & Hg & _).
  rewrite List.Forall_forall in Hg. specialize (Hg _ Hin). simpl in Hg.
  destruct (Errors.getLoginFormErrors (prop payload "email") (prop payload "password"))
    as [msg|] eqn:E; [|reflexivity].
  simpl in Hg. now rewrite (getLoginFormErrors_message_nonempty _ _ _ E) in Hg.
Qed.

(** X16: along every run of the page, the navigations requested are all to
    [/dashboard], one per success notification, and the success notifications
    together with the submissions still awaiting their outcome never
    outnumber the [login] calls: the page does not navigate without a login
    call that resolved. *)
Theorem navigation_follows_resolved_login (st : Store.IUserStore) (evs : list Event) :
  List.filter isRouterPush (log (world (run (mountedWith st) evs))) =
    repeat (RouterPush "/dashboard")
      (length (List.filter isToastSuccess (log (world (run (mountedWith st) evs))))) /\
  length (List.filter isToastSuccess (log (world (run (mountedWith st) evs)))) +
    length (suspended (run (mountedWith st) evs)) <=
    length (List.filter isLogin (log (world (run (mountedWith st) evs)))).
Proof.
  destruct (flowInvariant_run st evs _ (flowInvariant_mounted st))
    as (_ & _ & _ & Hp & Hn).
  split; assumption.
Qed.

Lemma flow_step_keeps_form (c : Controller) (ev : Event) :
  Forall (fun k => k = afterLogin) (suspended c) ->
  isEdit ev = false ->
  formData (world (step c ev)) = formData (world c) /\
  error (world (step c ev)) = error (world c).
Proof.
  intros Hk Hev. destruct ev as [name value|name| |outcome]; try discriminate Hev.
  - destruct (gateError (world c)) as [msg|] eqn:E.
    + rewrite (step_Submit_failed _ _ E). split; reflexivity.
    + rewrite (step_Submit_passed _ E). split; reflexivity.
  - simpl. destruct (suspended c) as [|k rest] eqn:E; [split; reflexivity|].
    pose proof (Forall_inv Hk) as Hka. simpl in Hka. rewrite Hka.
    destruct outcome; split; reflexivity.
Qed.

(** X17: submissions and their settlements, accepted or rejected, never
    touch what the user typed nor the displayed error: after any run of the
    page, any sequence of submits and settlements leaves [formData] and
    [error] as they were. *)
Theorem submissions_keep_form_cells
    (st : Store.IUserStore) (evs flow : list Event) :
  forallb (fun ev => negb (isEdit ev)) flow = true ->
  formData (world (run (run (mountedWith st) evs) flow)) =
    formData (world (run (mountedWith st) evs)) /\
  error (world (run (run (mountedWith st) evs) flow)) =
    error (world (run (mountedWith st) evs)).
Proof.
  pose proof (flowInvariant_run st evs _ (flowInvariant_mounted st)) as Hinv.
  revert Hinv. generalize (run (mountedWith st) evs) as c.
  induction flow as [|ev flow IH]; intros c Hinv Hflow; [split; reflexivity|].
  simpl in Hflow. apply andb_true_iff in Hflow as [Hev Hflow].
  apply negb_true_iff in Hev.
  simpl. destruct (IH (step c ev) (flowInvariant_step st c ev Hinv) Hflow) as [-> ->].
  apply flow_step_keeps_form; [apply Hinv | exact Hev].
Qed.

(** X18: a submission that passes the gate and that the login collaborator
    accepts ends in [Succeeded]: the page has called [login] once with the
    form's fields, then raised the success notification, then requested
    [/dashboard], in this order; it has stored nothing in the session store. *)
Theorem resolved_login_navigates
    (c : Controller) (edits : list Event) (a : unit) :
  phase c = Editing ->
  gateError (world c) = None ->
  forallb isEdit edits = true ->
  phase (step (run (step c Submit) edits) (Settle (Resolved a))) = Succeeded /\
  log (world (step (run (step c Submit) edits) (Settle (Resolved a)))) =
    log (world c) ++
      [PreventDefault; Login (formData (world c));
       ToastSuccess "Successfully logged in."; RouterPush "/dashboard"] /\
  suspended (step (run (step c Submit) edits) (Settle (Resolved a))) = [] /\
  session (world (step (run (step c Submit) edits) (Settle (Resolved a)))) =
    session (world c).
Proof.
  intros Hphase Hgate Hedits.
  apply phase_Editing in Hphase as [Hpush Hsusp].
  pose proof (step_Submit_passed c Hgate) as Hsubmit. rewrite Hsusp in Hsubmit.
  destruct (edit_run_frame edits (step c Submit) Hedits) as (Hlog & Hsess & Hsus).
  assert (Hsus' : suspended (run (step c Submit) edits) = [afterLogin])
    by (rewrite Hsus, Hsubmit; reflexivity).
  assert (Hlog' : log (world (run (step c Submit) edits)) =
                  (log (world c) ++ [PreventDefault]) ++ [Login (formData (world c))])
    by (rewrite Hlog, Hsubmit; reflexivity).
  assert (Hsess' : session (world (run (step c Submit) edits)) = session (world c))
    by (rewrite Hsess, Hsubmit; reflexivity).
  rewrite (step_Settle_cons _ afterLogin [] _ Hsus').
  unfold afterLogin. cbn [world suspended].
  assert (Hlog2 :
    log (emit (RouterPush "/dashboard")
           (emit (ToastSuccess "Successfully logged in.")
              (world (run (step c Submit) edits)))) =
    log (world c) ++
      [PreventDefault; Login (formData (world c));
       ToastSuccess "Successfully logged in."; RouterPush "/dashboard"]).
  { rewrite !emit_log, Hlog'. now rewrite <- !app_assoc. }
  split; [|split; [exact Hlog2 | split; [reflexivity | exact Hsess']]].
  unfold phase. cbn [world]. rewrite Hlog2, existsb_app. simpl.
  now rewrite orb_true_r.
Qed.

(** X19: the page has no guard against a second submit while the first
    awaits its outcome: two submits of a form that passes the gate call
    [login] twice with the same payload and leave two submissions pending. *)
Theorem second_submit_calls_login_again (c : Controller) :
  gateError (world c) = None ->
  log (world (step (step c Submit) Submit)) =
    log (world c) ++
      [PreventDefault; Login (formData (world c));
       PreventDefault; Login (formData (world c))] /\
  suspended (step (step c Submit) Submit) = suspended c ++ [afterLogin; afterLogin] /\
  (phase c = Editing -> phase (step c Submit) = Submitting).
Proof.
  intros Hgate.
  pose proof (step_Submit_passed c Hgate) as H1.
  assert (Hgate1 : gateError (world (step c Submit)) = None).
  { rewrite H1. exact Hgate. }
  pose proof (step_Submit_passed _ Hgate1) as H2.
  rewrite H2, H1. cbn [world suspended formData emit].
  split; [rewrite !emit_log; now rewrite <- !app_assoc|].
  split; [now rewrite <- app_assoc|].
  intros Hphase. apply phase_Editing in Hphase as [Hpush Hsusp].
  unfold phase. cbn [world suspended log emit].
  rewrite !existsb_app, Hpush, Hsusp. reflexivity.
Qed.

End LoginFlowMore.

(** A run with one refused and one accepted submission. *)
Lemma login_payloads_passed_gate_witness :
  In (LoginPage.Login
        (<["password" := JS.Str "abcdef"]> (<["email" := JS.Str "bob@example.com"]> ∅)))
     (LoginPage.log
        (LoginPage.world
           (LoginPage.run (LoginView.mountedWith Store.initial)
              [LoginPage.Submit;
               LoginPage.Change "email" "bob@example.com";
               LoginPage.Change "password" "abcdef";
               LoginPage.Submit]))) /\
  Errors.getLoginFormErrors
    (JS.prop (<["password" := JS.Str "abcdef"]> (<["email" := JS.Str "bob@example.com"]> ∅))
       "email")
    (JS.prop (<["password" := JS.Str "abcdef"]> (<["email" := JS.Str "bob@example.com"]> ∅))
       "password") = None.
Proof.
  assert (H : In (LoginPage.Login
        (<["password" := JS.Str "abcdef"]> (<["email" := JS.Str "bob@example.com"]> ∅)))
     (LoginPage.log
        (LoginPage.world
           (LoginPage.run (LoginView.mountedWith Store.initial)
              [LoginPage.Submit;
               LoginPage.Change "email" "bob@example.com";
               LoginPage.Change "password" "abcdef";
               LoginPage.Submit])))).
  { vm_compute. right. right. right. left. reflexivity. }
  split; [exact H|].
  exact (login_payloads_passed_gate Store.initial _ _ H).
Defined.

(** Two submits and two settlements after the form was filled in. *)
Lemma submissions_keep_form_cells_witness :
  LoginView.passwordInputValue
    (LoginPage.world
       (LoginPage.run
          (LoginPage.run (LoginView.mountedWith Store.initial)
             [LoginPage.Change "email" "bob@example.com";
              LoginPage.Change "password" "abcdef"])
          [LoginPage.Submit; LoginPage.Submit;
           LoginPage.Settle (JS.Rejected "Network Error");
           LoginPage.Settle (JS.Resolved tt)])) = JS.Str "abcdef".
Proof.
  unfold LoginView.passwordInputValue.
  destruct (submissions_keep_form_cells Store.initial
              [LoginPage.Change "email" "bob@example.com";
               LoginPage.Change "password" "abcdef"]
              [LoginPage.Submit; LoginPage.Submit;
               LoginPage.Settle (JS.Rejected "Network Error");
               LoginPage.Settle (JS.Resolved tt)] eq_refl) as [-> _].
  vm_compute. reflexivity.
Defined.

Lemma resolved_login_navigates_witness :
  LoginPage.phase
    (LoginPage.step
       (LoginPage.run
          (LoginPage.step
             (LoginPage.run LoginPage.mounted
                [LoginPage.Change "email" "bob@example.com";
                 LoginPage.Change "password" "abcdef"])
             LoginPage.Submit)
          [LoginPage.Toggle "showPassword"])
       (LoginPage.Settle (JS.Resolved tt))) = LoginPage.Succeeded /\
  LoginPage.session
    (LoginPage.world
       (LoginPage.step
          (LoginPage.run
             (LoginPage.step
                (LoginPage.run LoginPage.mounted
                   [LoginPage.Change "email" "bob@example.com";
                    LoginPage.Change "password" "abcdef"])
                LoginPage.Submit)
             [LoginPage.Toggle "showPassword"])
          (LoginPage.Settle (JS.Resolved tt)))) = Store.initial.
Proof.
  destruct (resolved_login_navigates
              (LoginPage.run LoginPage.mounted
                 [LoginPage.Change "email" "bob@example.com";
                  LoginPage.Change "password" "abcdef"])
              [LoginPage.Toggle "showPassword"] tt)
    as (Hphase & _ & _ & Hsession).
  - vm_compute. reflexivity.
  - vm_compute. reflexivity.
  - reflexivity.
  - split; [exact Hphase | exact Hsession].
Defined.

Lemma second_submit_calls_login_again_witness :
  length
    (List.filter LoginPage.isLogin
       (LoginPage.log
          (LoginPage.world
             (LoginPage.step
                (LoginPage.step
                   (LoginPage.run LoginPage.mounted
                      [LoginPage.Change "email" "bob@example.com";
                       LoginPage.Change "password" "abcdef"])
                   LoginPage.Submit)
                LoginPage.Submit)))) = 2.
Proof.
  destruct (second_submit_calls_login_again
              (LoginPage.run LoginPage.mounted
                 [LoginPage.Change "email" "bob@example.com";
                  LoginPage.Change "password" "abcdef"])) as (Hlog & _).
  - vm_compute. reflexivity.
  - rewrite Hlog. vm_compute. reflexivity.
Defined.
